(** * Heightmap-to-landscape import: a shallow embedding of [GenerateLandscape]

    Source: [src/generation.cpp].  The single C++ function decodes a 16-bit
    grayscale PNG, pads it to a square power-of-two grid, derives the
    landscape component parameters and the actor scale, and hands all of it
    to the engine.  The embedding keeps the names of the C++ locals. *)

From Stdlib Require Import ZArith Lia Floats.SpecFloat.
From stdpp Require Import base option list strings numbers gmap.

Local Open Scope Z_scope.

(** ** Machine integers

    [int32] and [uint32] values are integers of [Z]; every conversion and
    every arithmetic result of the source is reduced explicitly.  Signed
    arithmetic that leaves [int32] wraps around in two's complement, as the
    compiled code does. *)

Definition int32_max : Z := 2 ^ 31 - 1.
Definition int32_min : Z := - 2 ^ 31.

Definition to_uint32 (z : Z) : Z := z mod 2 ^ 32.
Definition to_int32 (z : Z) : Z := (z + 2 ^ 31) mod 2 ^ 32 - 2 ^ 31.

Definition is_int32 (z : Z) : Prop := int32_min <= z <= int32_max.

(** ** Engine arithmetic helpers *)

(** Modelled from the spec: [FMath::CeilLogTwo] is engine code, not under
    src/; it is the exponent of the least power of two that is not below its
    argument. *)
Definition CeilLogTwo (Arg : Z) : Z := Z.log2_up Arg.

(** Modelled from the spec: [FMath::RoundUpToPowerOfTwo] is engine code, not
    under src/.  The spec names it nextPowerOfTwo: the least power of two
    that is not below its argument, written as the engine's
    [1 << CeilLogTwo(Arg)]. *)
Definition RoundUpToPowerOfTwo (Arg : Z) : Z := Z.shiftl 1 (CeilLogTwo Arg).

(** Modelled from the spec: [FMath::Max] is engine code, not under src/; the
    spec writes it max. *)
Definition FMath_Max (a b : Z) : Z := if a <? b then b else a.

Definition is_power_of_two (n : Z) : Prop := exists k : Z, 0 <= k /\ n = 2 ^ k.

(** ** Faults

    The ways the body of the function can stop without returning: the
    engine's array checks are fatal, and a read through a raw pointer
    outside its buffer has no defined result. *)

Inductive fault : Type :=
| NegativeNum (NewNum : Z)        (* [TArray::SetNum] with a negative count *)
| RangeCheck (Index Num : Z)      (* [TArray::operator[]] outside [0, Num) *)
| WildRead (Index : Z).           (* [SrcData[Index]] outside the raw buffer *)

Inductive result (A : Type) : Type :=
| Ok (a : A)
| Crash (f : fault).

Arguments Ok {A} a.
Arguments Crash {A} f.

#[global] Instance result_ret : MRet result := fun _ a => Ok a.
#[global] Instance result_bind : MBind result := fun _ _ k m =>
  match m with
  | Ok a => k a
  | Crash f => Crash f
  end.

(** ** Arrays

    [TArray<uint16>] is a list of samples.  [TArray::SetNum] rejects a
    negative count and default-constructs (zeroes) the new elements;
    [FMemory::Memzero] zeroes them again.  [TArray::operator[]] range-checks
    its index.  [SrcData] is a raw [uint16*] into the decoded buffer. *)

Definition TArray_SetNum (NewNum : Z) : result (list Z) :=
  if NewNum <? 0 then Crash (NegativeNum NewNum)
  else Ok (replicate (Z.to_nat NewNum) 0).

Definition Memzero (A : list Z) : list Z := replicate (length A) 0.

Definition TArray_Num (A : list Z) : Z := Z.of_nat (length A).

Definition in_range (A : list Z) (Index : Z) : bool :=
  (0 <=? Index) && (Index <? TArray_Num A).

Definition TArray_set (A : list Z) (Index v : Z) : result (list Z) :=
  if in_range A Index then Ok (<[Z.to_nat Index := v]> A)
  else Crash (RangeCheck Index (TArray_Num A)).

Definition ptr_read (P : list Z) (Index : Z) : result Z :=
  if Index <? 0 then Crash (WildRead Index)
  else match P !! Z.to_nat Index with
       | Some v => Ok v
       | None => Crash (WildRead Index)
       end.

(** [for (int32 i = from; i < from + n; i++) body(i)] over a state that the
    body may fail to produce. *)
Fixpoint for_loop {St : Type} (n : nat) (i : Z) (body : Z -> St -> result St) (s : St)
  : result St :=
  match n with
  | O => Ok s
  | S n' => s' ← body i s; for_loop n' (i + 1) body s'
  end.

(** ** The decoded image and the resize step (lines 30-57) *)

(** What [IImageWrapper] hands back: [GetWidth()], [GetHeight()], and the
    [uint16] view [SrcData] of the buffer filled by [GetRaw(Gray, 16, ..)]. *)
Record SourceImage : Type := mkImage {
  OriginalSizeX : Z;
  OriginalSizeY : Z;
  SrcData : list Z
}.

(** A decoded image has positive dimensions and [width * height] samples in
    row-major order.  [RawImageData] is a [TArray<uint8>], whose [Num()] is
    an [int32]: two bytes per sample bound the sample count. *)
Definition decoded (img : SourceImage) : Prop :=
  0 < OriginalSizeX img /\ 0 < OriginalSizeY img /\
  Z.of_nat (length (SrcData img)) = OriginalSizeX img * OriginalSizeY img /\
  2 * Z.of_nat (length (SrcData img)) <= int32_max.

(** Line 34: [const int32 SizeX = FMath::RoundUpToPowerOfTwo(OriginalSizeX)],
    through the [uint32] parameter and back.  Line 35: [SizeY = SizeX]. *)
Definition SizeX (OriginalSizeX : Z) : Z :=
  to_int32 (RoundUpToPowerOfTwo (to_uint32 OriginalSizeX)).

Definition SizeY (OriginalSizeX : Z) : Z := SizeX OriginalSizeX.

(** The destination and source indices of line 55, in [int32]. *)
Definition dst_index (SizeX Y X : Z) : Z := to_int32 (to_int32 (Y * SizeX) + X).
Definition src_index (OriginalSizeX Y X : Z) : Z :=
  to_int32 (to_int32 (Y * OriginalSizeX) + X).

(** Line 55: [HeightData[Y * SizeX + X] = SrcData[Y * OriginalSizeX + X]]. *)
Definition copy_cell (img : SourceImage) (SizeX Y X : Z) (HeightData : list Z)
  : result (list Z) :=
  v ← ptr_read (SrcData img) (src_index (OriginalSizeX img) Y X);
  TArray_set HeightData (dst_index SizeX Y X) v.

(** Lines 53-56, then lines 51-57. *)
Definition copy_row (img : SourceImage) (SizeX Y : Z) (HeightData : list Z)
  : result (list Z) :=
  for_loop (Z.to_nat (OriginalSizeX img)) 0 (copy_cell img SizeX Y) HeightData.

Definition copy_rows (img : SourceImage) (SizeX : Z) (HeightData : list Z)
  : result (list Z) :=
  for_loop (Z.to_nat (OriginalSizeY img)) 0 (copy_row img SizeX) HeightData.

(** Lines 46-57: allocate [SizeX * SizeY] samples, zero them, copy. *)
Definition resize (img : SourceImage) : result (list Z) :=
  let SX := SizeX (OriginalSizeX img) in
  let SY := SizeY (OriginalSizeX img) in
  HeightData ← TArray_SetNum (to_int32 (SX * SY));
  copy_rows img SX (Memzero HeightData).

(** The sample a padded grid holds at row [r], column [c]: the source sample
    inside the source rectangle, zero outside it. *)
Definition padded_sample (img : SourceImage) (r c : Z) : Z :=
  if (r <? OriginalSizeY img) && (c <? OriginalSizeX img)
  then default 0 (SrcData img !! Z.to_nat (r * OriginalSizeX img + c))
  else 0.

(** The cell of a square grid of side [Size] at row [r], column [c]. *)
Definition cell (Size : Z) (G : list Z) (r c : Z) : option Z :=
  G !! Z.to_nat (r * Size + c).

(** Loop invariant of the copy: the grid has [Size * Size] cells, the cells
    of rows above [Y] and of row [Y] left of column [X] hold their padded
    sample, every other cell is still zero. *)
Definition filled (img : SourceImage) (Size Y X : Z) (G : list Z) : Prop :=
  TArray_Num G = Size * Size /\
  forall r c, 0 <= r < Size -> 0 <= c < Size ->
    cell Size G r c =
    Some (if (r <? Y) || ((r =? Y) && (c <? X)) then padded_sample img r c else 0).

(** ** Terrain parameters (lines 66-68) *)

Definition ComponentQuads (SizeX : Z) : Z := FMath_Max 63 (to_int32 (SizeX - 1)).
Definition SubsectionQuads (SizeX : Z) : Z := ComponentQuads SizeX.
Definition NumSubsections : Z := 1.

(** ** Single-precision arithmetic (lines 71-80)

    [float] is IEEE binary32, taken from the Standard Library's executable
    specification of floating-point numbers. *)

Definition float : Type := spec_float.
Definition float_of_int32 (n : Z) : float := binary_normalize 24 128 n 0 false.
Definition fmul : float -> float -> float := SFmul 24 128.
Definition fdiv : float -> float -> float := SFdiv 24 128.

(** Modelled from the spec: [FMath::Sqrt] is engine code, not under src/;
    the spec reads it as the square root, here the correctly rounded one. *)
Definition FMath_Sqrt : float -> float := SFsqrt 24 128.

(** Modelled from the spec: [FMath::RoundToInt] is engine code, not under
    src/; the spec reads it as nearest-integer rounding.  Halves go up, and
    an argument that is not a finite number yields the least [int32], as the
    hardware conversion does. *)
Definition FMath_RoundToInt (F : float) : Z :=
  match F with
  | S754_zero _ => 0
  | S754_finite s m e =>
      let v := cond_Zopp s (Zpos m) in
      to_int32 (if 0 <=? e then v * 2 ^ e
                else (v + 2 ^ (- e - 1)) / 2 ^ (- e))
  | S754_infinity _ | S754_nan => int32_min
  end.

Definition BlockSizeInUnrealUnits : float := float_of_int32 50000.
Definition DesiredScale : float := float_of_int32 25.

Definition GridSize (NumBlocks : Z) : Z :=
  FMath_RoundToInt (FMath_Sqrt (float_of_int32 NumBlocks)).

Definition TotalSizeInUnrealUnits (NumBlocks : Z) : float :=
  fmul BlockSizeInUnrealUnits (float_of_int32 (GridSize NumBlocks)).

Definition HorizontalScaleFactor (SizeX NumBlocks : Z) : float :=
  fdiv (TotalSizeInUnrealUnits NumBlocks) (float_of_int32 SizeX).

Definition VerticalScaleFactor : float := DesiredScale.

(** ** The engine around the function *)

Definition FGuid : Type := Z * Z * Z * Z.
Definition FGuid_default : FGuid := (0, 0, 0, 0).

(** The image wrapper after a successful [SetCompressed]: the dimensions it
    reports and what [GetRaw(ERGBFormat::Gray, 16, ..)] yields, [None] when
    it returns false.  The raw bytes are kept in their [uint16] view. *)
Record IImageWrapper : Type := mkWrapper {
  GetWidth : Z;
  GetHeight : Z;
  GetRaw : option (list Z)
}.

(** What the function consults outside its arguments: the file system, the
    image wrapper module with its PNG decoder, and the GUID generator. *)
Record Engine : Type := mkEngine {
  LoadFileToArray : string -> option (list Byte.byte);
  CreateImageWrapper_IsValid : bool;
  SetCompressed : list Byte.byte -> option IImageWrapper;
  NewGuid : FGuid
}.

(** The world the landscape is spawned into; [SpawnActor] may return null. *)
Record UWorld : Type := mkWorld {
  SpawnActor_succeeds : bool
}.

Record FLandscapeImportLayerInfo : Type := mkLayerInfo { LayerName : string }.

Inductive ELandscapeImportAlphamapType : Type := Additive | Layered.

(** The arguments of [ALandscape::Import] (lines 116-126). *)
Record ImportArgs : Type := mkImport {
  InGuid : FGuid;
  InMinX : Z; InMinY : Z; InMaxX : Z; InMaxY : Z;
  InNumSubsections : Z;
  InSubsectionSizeQuads : Z;
  InHeightDataPerLayers : gmap FGuid (list Z);
  InMaterialLayerDataPerLayers : gmap FGuid (list FLandscapeImportLayerInfo);
  InAlphamapType : ELandscapeImportAlphamapType
}.

(** The landscape actor once the function is through with it. *)
Record ALandscape : Type := mkLandscape {
  ComponentSizeQuads : Z;
  SubsectionSizeQuads : Z;
  LandscapeNumSubsections : Z;
  ActorScale3D : float * float * float;
  Imported : ImportArgs
}.

Inductive Verbosity : Type := Error | Warning | Log.

Inductive Message : Type :=
| MsgLoadFailed (Path : string)
| MsgWrapperFailed
| MsgSizes (OriginalSizeX OriginalSizeY SizeX SizeY : Z)
| MsgRawFailed
| MsgScales (Horizontal Vertical : float)
| MsgCreated (SizeX SizeY ComponentQuads SubsectionQuads : Z)
| MsgEditorOnly.

(** Calls that leave the function, in program order. *)
Inductive Event : Type :=
| EvLoadFileToArray (Path : string)
| EvCreateImageWrapper
| EvSetCompressed (RawFileData : list Byte.byte)
| EvGetRaw
| EvLog (v : Verbosity) (m : Message)
| EvSpawnActor
| EvConfigure (ComponentSizeQuads SubsectionSizeQuads NumSubsections : Z)
| EvSetActorScale3D (Scale : float * float * float)
| EvImport (args : ImportArgs)
| EvCreateLandscapeInfo.

(** How a call of the function ends. *)
Inductive Outcome : Type :=
| HostUnavailable               (* line 8: no world *)
| EditorOnly                    (* line 134: not an editor build *)
| FileReadError                 (* line 17 *)
| FormatError                   (* line 26 *)
| PixelFormatError              (* line 62 *)
| Faulted (f : fault)           (* an array check inside lines 46-57 *)
| SpawnFailed                   (* line 104 *)
| Created (L : ALandscape).     (* line 131 *)

(** A computation that logs the calls it makes and either goes on with a
    value or has returned from the function. *)
Inductive proc (A : Type) : Type :=
| Proc (trace : list Event) (r : Outcome + A).

Arguments Proc {A} trace r.

#[global] Instance proc_ret : MRet proc := fun _ a => Proc [] (inr a).
#[global] Instance proc_bind : MBind proc := fun _ _ k m =>
  match m with
  | Proc t (inl o) => Proc t (inl o)
  | Proc t (inr a) => match k a with Proc t' r => Proc (t ++ t') r end
  end.

Definition call {A : Type} (e : Event) (a : A) : proc A := Proc [e] (inr a).
Definition emit (e : Event) : proc unit := call e tt.
Definition UE_LOG (v : Verbosity) (m : Message) : proc unit := emit (EvLog v m).
Definition return_ {A : Type} (o : Outcome) : proc A := Proc [] (inl o).

Definition lift_result {A : Type} (r : result A) : proc A :=
  match r with
  | Ok a => mret a
  | Crash f => return_ (Faulted f)
  end.

Definition finish (m : proc Outcome) : list Event * Outcome :=
  match m with
  | Proc t (inl o) => (t, o)
  | Proc t (inr o) => (t, o)
  end.

(** ** [GenerateLandscape] (lines 4-136) *)

Definition GenerateLandscape_editor
    (Eng : Engine) (CombinedAbsoluteFilePath : string) (World : UWorld)
    (NumBlocks : Z) : proc Outcome :=
  (* lines 13-18 *)
  Loaded ← call (EvLoadFileToArray CombinedAbsoluteFilePath)
               (LoadFileToArray Eng CombinedAbsoluteFilePath);
  match Loaded with
  | None =>
      UE_LOG Error (MsgLoadFailed CombinedAbsoluteFilePath);;
      return_ FileReadError
  | Some RawFileData =>
  (* lines 20-27 *)
  Valid ← call EvCreateImageWrapper (CreateImageWrapper_IsValid Eng);
  Wrapper ← (if (Valid : bool)
             then call (EvSetCompressed RawFileData) (SetCompressed Eng RawFileData)
             else mret None);
  match Wrapper with
  | None =>
      UE_LOG Error MsgWrapperFailed;;
      return_ FormatError
  | Some ImageWrapper =>
  (* lines 30-38 *)
  let OriginalSizeX := GetWidth ImageWrapper in
  let OriginalSizeY := GetHeight ImageWrapper in
  let SizeX := SizeX OriginalSizeX in
  let SizeY := SizeY OriginalSizeX in
  UE_LOG Log (MsgSizes OriginalSizeX OriginalSizeY SizeX SizeY);;
  (* lines 41-63 *)
  Raw ← call EvGetRaw (GetRaw ImageWrapper);
  match Raw with
  | None =>
      UE_LOG Error MsgRawFailed;;
      return_ PixelFormatError
  | Some RawImageData =>
  HeightData ← lift_result (resize (mkImage OriginalSizeX OriginalSizeY RawImageData));
  (* lines 66-84 *)
  let ComponentQuads := ComponentQuads SizeX in
  let SubsectionQuads := SubsectionQuads SizeX in
  let HorizontalScaleFactor := HorizontalScaleFactor SizeX NumBlocks in
  UE_LOG Log (MsgScales HorizontalScaleFactor VerticalScaleFactor);;
  (* lines 87-91 *)
  let HeightDataPerLayers : gmap FGuid (list Z) := <[FGuid_default := HeightData]> ∅ in
  let MaterialLayerDataPerLayers : gmap FGuid (list FLandscapeImportLayerInfo) :=
    <[FGuid_default := []]> ∅ in
  (* lines 94-105 *)
  Landscape ← call EvSpawnActor (SpawnActor_succeeds World);
  if negb Landscape then return_ SpawnFailed else
  (* lines 108-113 *)
  emit (EvConfigure ComponentQuads SubsectionQuads NumSubsections);;
  let Scale := (HorizontalScaleFactor, HorizontalScaleFactor, VerticalScaleFactor) in
  emit (EvSetActorScale3D Scale);;
  (* lines 116-128 *)
  let args := mkImport (NewGuid Eng) 0 0 (to_int32 (SizeX - 1)) (to_int32 (SizeY - 1))
                       NumSubsections SubsectionQuads
                       HeightDataPerLayers MaterialLayerDataPerLayers Additive in
  emit (EvImport args);;
  emit EvCreateLandscapeInfo;;
  UE_LOG Log (MsgCreated SizeX SizeY ComponentQuads SubsectionQuads);;
  mret (Created (mkLandscape ComponentQuads SubsectionQuads NumSubsections Scale args))
  end end end.

Definition GenerateLandscape
    (WITH_EDITOR : bool) (Eng : Engine) (CombinedAbsoluteFilePath : string)
    (World : option UWorld) (NumBlocks : Z) : list Event * Outcome :=
  match World with
  | None => ([], HostUnavailable)
  | Some W =>
      if WITH_EDITOR
      then finish (GenerateLandscape_editor Eng CombinedAbsoluteFilePath W NumBlocks)
      else finish (UE_LOG Warning MsgEditorOnly;; return_ EditorOnly)
  end.

(** ** Observations on a run *)

(** Calls on the world or on the landscape actor: the terrain builder. *)
Definition is_builder_event (e : Event) : bool :=
  match e with
  | EvSpawnActor | EvConfigure _ _ _ | EvSetActorScale3D _ | EvImport _
  | EvCreateLandscapeInfo => true
  | _ => false
  end.

(** Events that carry a terrain parameter, a scale or a height grid. *)
Definition carries_terrain (e : Event) : bool :=
  match e with
  | EvConfigure _ _ _ | EvSetActorScale3D _ | EvImport _
  | EvLog _ (MsgScales _ _) | EvLog _ (MsgCreated _ _ _ _) => true
  | _ => false
  end.

Definition is_error_log (e : Event) : bool :=
  match e with
  | EvLog Error _ => true
  | _ => false
  end.

Definition landscape_of (o : Outcome) : option ALandscape :=
  match o with
  | Created L => Some L
  | _ => None
  end.

(** The values the function computes for the landscape: height grid,
    component quads, subsection quads, number of subsections, and the
    horizontal and vertical scale. *)
Record Computed : Type := mkComputed {
  grid : option (list Z);
  componentQuads : Z;
  subsectionQuads : Z;
  numSubsections : Z;
  horizontalScale : float * float;
  verticalScale : float
}.

Definition computed_of (L : ALandscape) : Computed :=
  mkComputed (InHeightDataPerLayers (Imported L) !! FGuid_default)
             (ComponentSizeQuads L) (SubsectionSizeQuads L)
             (LandscapeNumSubsections L)
             (ActorScale3D L).1 (ActorScale3D L).2.

Definition computed (o : Outcome) : option Computed :=
  computed_of <$> landscape_of o.

(** The three ways decoding fails, with the outcome each one leads to. *)
Inductive DecodeFailure (Eng : Engine) (Path : string) : Outcome -> Prop :=
| file_unreadable :
    LoadFileToArray Eng Path = None ->
    DecodeFailure Eng Path FileReadError
| wrapper_invalid bytes :
    LoadFileToArray Eng Path = Some bytes ->
    CreateImageWrapper_IsValid Eng = false ->
    DecodeFailure Eng Path FormatError
| container_undecodable bytes :
    LoadFileToArray Eng Path = Some bytes ->
    CreateImageWrapper_IsValid Eng = true ->
    SetCompressed Eng bytes = None ->
    DecodeFailure Eng Path FormatError
| raw_extraction_failed bytes ImageWrapper :
    LoadFileToArray Eng Path = Some bytes ->
    CreateImageWrapper_IsValid Eng = true ->
    SetCompressed Eng bytes = Some ImageWrapper ->
    GetRaw ImageWrapper = None ->
    DecodeFailure Eng Path PixelFormatError.

(** ** Sample runs *)

(** A one-pixel-wide, two-pixel-tall image. *)
Definition tall_image : SourceImage := mkImage 1 2 [7; 9].

(** The spec's 300 x 200 image, every sample 1. *)
Definition flat_300_by_200 : SourceImage :=
  mkImage 300 200 (replicate (Z.to_nat 60000) 1).

(** An engine whose file system holds one corrupt file. *)
Definition corrupt_engine : Engine :=
  mkEngine (fun _ => Some [Byte.x00]) true (fun _ => None) (1, 2, 3, 4).

(** Two engines that differ in everything but the bytes of the file and the
    decoder: the file sits under different paths and the GUID generator
    answers differently. *)
Definition two_by_two : IImageWrapper := mkWrapper 2 2 (Some [10; 20; 30; 40]).

Definition engine_a : Engine :=
  mkEngine (fun p => if String.eqb p "a.png" then Some [Byte.x89] else None)
           true (fun _ => Some two_by_two) (1, 2, 3, 4).

Definition engine_b : Engine :=
  mkEngine (fun p => if String.eqb p "b.png" then Some [Byte.x89] else None)
           true (fun _ => Some two_by_two) (5, 6, 7, 8).

(** An engine that decodes every file to [tall_image]. *)
Definition tall_engine : Engine :=
  mkEngine (fun _ => Some [Byte.x89]) true
           (fun _ => Some (mkWrapper 1 2 (Some [7; 9]))) (1, 2, 3, 4).

(** ** Single-precision helpers for the scale computation *)

(** The binary32 number [2 ^ k], for [k] in the normal range. *)
Definition pow2_float (k : Z) : float := S754_finite false 8388608 (k - 23).

(** A normal binary32 number (full 24-bit mantissa) whose exponent lies in
    the window that [50000 * G] occupies for a positive [int32] root [G]. *)
Definition is_normal (x : float) : bool :=
  match x with
  | S754_finite _ m e => Pos.eqb (digits2_pos m) 24 && (-8 <=? e) && (e <=? 8)
  | _ => false
  end.

(** [P] holds at [i], [i + 1], ..., [i + n - 1]. *)
Fixpoint all_from (n : nat) (i : Z) (P : Z -> bool) : bool :=
  match n with
  | O => true
  | S n' => P i && all_from n' (i + 1) P
  end.

(** Unfolds one layer of the [proc] plumbing of [GenerateLandscape]. *)
Ltac step_proc :=
  cbn [mbind proc_bind mret proc_ret call emit UE_LOG return_ finish lift_result app].

(** Splits an editor-build run with a world along the tests of the source:
    file loaded, wrapper valid, container decoded, raw data extracted, copy
    completed, actor spawned. *)
Ltac split_run Eng Path World :=
  unfold GenerateLandscape, GenerateLandscape_editor;
  let bytes := fresh "bytes" in
  let ImageWrapper := fresh "ImageWrapper" in
  let RawImageData := fresh "RawImageData" in
  let HeightData := fresh "HeightData" in
  let f := fresh "f" in
  destruct (LoadFileToArray Eng Path) as [bytes|] eqn:Hload; step_proc;
  [destruct (CreateImageWrapper_IsValid Eng) eqn:Hvalid; step_proc;
   [destruct (SetCompressed Eng bytes) as [ImageWrapper|] eqn:Hset; step_proc;
    [destruct (GetRaw ImageWrapper) as [RawImageData|] eqn:Hraw; step_proc;
     [destruct (resize (mkImage (GetWidth ImageWrapper) (GetHeight ImageWrapper)
                                RawImageData))
        as [HeightData|f] eqn:Hres; step_proc;
      [destruct (SpawnActor_succeeds World) eqn:Hspawn; cbn [negb]; step_proc| ]| ]| ]| ]| ].

(** Case analysis on membership in an explicit list of events. *)
Ltac in_trace H :=
  cbn [In fst snd] in H;
  repeat match type of H with
         | _ \/ _ => destruct H as [H|H]
         | False => destruct H
         end.

(** * Proofs *)

(** ** Basic facts about the integer layer *)

Lemma to_int32_id z : is_int32 z -> to_int32 z = z.
Proof.
  unfold is_int32, int32_min, int32_max, to_int32. intros Hz.
  rewrite Z.mod_small; lia.
Qed.

Lemma to_uint32_id z : 0 <= z < 2 ^ 32 -> to_uint32 z = z.
Proof. unfold to_uint32. intros Hz. now apply Z.mod_small. Qed.

Lemma RoundUpToPowerOfTwo_pow w : RoundUpToPowerOfTwo w = 2 ^ Z.log2_up w.
Proof.
  unfold RoundUpToPowerOfTwo, CeilLogTwo.
  rewrite Z.shiftl_1_l. reflexivity.
Qed.

Lemma RoundUpToPowerOfTwo_ge w : 0 < w -> w <= RoundUpToPowerOfTwo w.
Proof.
  intros Hw. rewrite RoundUpToPowerOfTwo_pow.
  destruct (Z.eq_dec w 1) as [->|Hne]; [vm_compute; discriminate|].
  apply (Z.log2_up_spec w). lia.
Qed.

Lemma RoundUpToPowerOfTwo_lt_double w : 0 < w -> RoundUpToPowerOfTwo w < 2 * w.
Proof.
  intros Hw. rewrite RoundUpToPowerOfTwo_pow.
  destruct (Z.eq_dec w 1) as [->|Hne]; [vm_compute; reflexivity|].
  assert (H1 : 1 < w) by lia.
  pose proof (Z.log2_up_spec w H1) as [Hlo _].
  assert (Hpos : 0 < Z.log2_up w) by (apply Z.log2_up_pos; lia).
  replace (Z.log2_up w) with (Z.succ (Z.pred (Z.log2_up w))) at 1 by lia.
  rewrite Z.pow_succ_r by lia. lia.
Qed.

Lemma RoundUpToPowerOfTwo_is_pow2 w : is_power_of_two (RoundUpToPowerOfTwo w).
Proof.
  exists (Z.log2_up w). split; [apply Z.log2_up_nonneg|].
  apply RoundUpToPowerOfTwo_pow.
Qed.

Lemma RoundUpToPowerOfTwo_fixpoint k : 0 <= k -> RoundUpToPowerOfTwo (2 ^ k) = 2 ^ k.
Proof.
  intros Hk. rewrite RoundUpToPowerOfTwo_pow.
  now rewrite Z.log2_up_pow2.
Qed.


(** ** Loops *)

Lemma for_loop_inv {St : Type} (Inv : Z -> St -> Prop) (body : Z -> St -> result St) n :
  forall i s,
    Inv i s ->
    (forall j t, i <= j < i + Z.of_nat n -> Inv j t ->
                 exists t', body j t = Ok t' /\ Inv (j + 1) t') ->
    exists s', for_loop n i body s = Ok s' /\ Inv (i + Z.of_nat n) s'.
Proof.
  induction n as [|n IH]; intros i s Hi Hstep.
  - exists s. split; [reflexivity|]. now replace (i + Z.of_nat 0) with i by lia.
  - destruct (Hstep i s) as (t & Hb & Ht); [lia|assumption|].
    destruct (IH (i + 1) t Ht) as (s' & Hl & Hs').
    + intros j u Hj Hu. apply Hstep; [lia|assumption].
    + exists s'. split.
      * cbn [for_loop]. rewrite Hb. exact Hl.
      * now replace (i + Z.of_nat (S n)) with (i + 1 + Z.of_nat n) by lia.
Qed.

Lemma for_loop_app {St : Type} (body : Z -> St -> result St) n m :
  forall i s,
    for_loop (n + m) i body s =
    (s' ← for_loop n i body s; for_loop m (i + Z.of_nat n) body s').
Proof.
  induction n as [|n IH]; intros i s.
  - cbn. now rewrite Z.add_0_r.
  - cbn [for_loop Nat.add]. destruct (body i s) as [t|f]; cbn; [|reflexivity].
    rewrite IH. now replace (i + 1 + Z.of_nat n) with (i + Z.of_nat (S n)) by lia.
Qed.

(** ** Index arithmetic of the copy loop *)

Lemma cell_index_inj S r c r' c' :
  0 <= c < S -> 0 <= c' < S -> r * S + c = r' * S + c' -> r = r' /\ c = c'.
Proof.
  intros Hc Hc' He.
  apply (Z.div_mod_unique S r r' c c'); [left; lia|left; lia|lia].
Qed.

Lemma SizeX_small w : 0 < w < 2 ^ 30 -> SizeX w = RoundUpToPowerOfTwo w.
Proof.
  intros Hw. unfold SizeX.
  rewrite to_uint32_id by lia.
  apply to_int32_id.
  pose proof (RoundUpToPowerOfTwo_ge w) as Hge.
  pose proof (RoundUpToPowerOfTwo_lt_double w) as Hlt.
  unfold is_int32, int32_min, int32_max. lia.
Qed.

Lemma SizeX_bounds w : 0 < w < 2 ^ 30 -> w <= SizeX w < 2 * w.
Proof.
  intros Hw. rewrite SizeX_small by assumption.
  split; [apply RoundUpToPowerOfTwo_ge|apply RoundUpToPowerOfTwo_lt_double]; lia.
Qed.

Lemma pow2_square_wraps k : 16 <= k -> to_int32 (2 ^ k * 2 ^ k) = 0.
Proof.
  intros Hk. rewrite <- Z.pow_add_r by lia.
  replace (k + k) with (32 + (k + k - 32)) by lia.
  rewrite Z.pow_add_r by lia.
  unfold to_int32.
  rewrite (Z.mul_comm (2 ^ 32)), Z.add_comm, Z_mod_plus_full.
  reflexivity.
Qed.

Lemma alloc_exact w :
  0 < w < 2 ^ 30 -> SizeX w * SizeX w <= int32_max ->
  TArray_SetNum (to_int32 (SizeX w * SizeY w)) =
  Ok (replicate (Z.to_nat (SizeX w * SizeX w)) 0).
Proof.
  intros Hw Hfit. pose proof (SizeX_bounds w Hw) as HS.
  unfold SizeY. rewrite to_int32_id
    by (unfold is_int32, int32_min, int32_max in *; nia).
  unfold TArray_SetNum.
  destruct (Z.ltb_spec (SizeX w * SizeX w) 0); [nia|reflexivity].
Qed.

Lemma filled_zero img Size :
  0 <= Size ->
  filled img Size 0 0 (Memzero (replicate (Z.to_nat (Size * Size)) 0)).
Proof.
  intros HS. unfold Memzero. rewrite length_replicate. split.
  - unfold TArray_Num. rewrite length_replicate. nia.
  - intros r c Hr Hc. unfold cell.
    rewrite lookup_replicate_2 by nia.
    destruct (Z.ltb_spec r 0); [lia|].
    destruct (Z.ltb_spec c 0); [lia|].
    now rewrite andb_false_r.
Qed.

Lemma filled_done img Size G r c :
  filled img Size (OriginalSizeY img) 0 G ->
  0 <= r < Size -> 0 <= c < Size ->
  cell Size G r c = Some (padded_sample img r c).
Proof.
  intros [_ Hcells] Hr Hc. rewrite (Hcells r c Hr Hc). f_equal.
  unfold padded_sample.
  destruct (Z.ltb_spec r (OriginalSizeY img)), (Z.eqb_spec r (OriginalSizeY img)),
    (Z.ltb_spec c 0); cbn; try reflexivity; lia.
Qed.

(** ** The resize step on one decoded image *)

Section ResizeStep.

Variable img : SourceImage.
Hypothesis Hd : decoded img.

Local Abbreviation width := (OriginalSizeX img).
Local Abbreviation height := (OriginalSizeY img).
Local Abbreviation side := (SizeX (OriginalSizeX img)).

Lemma decoded_width_small : 0 < width < 2 ^ 30.
Proof.
  destruct Hd as (Hw & Hh & Hlen & Hraw). unfold int32_max in Hraw. nia.
Qed.

Lemma decoded_height_pos : 0 < height.
Proof. now destruct Hd as (_ & Hh & _). Qed.

Lemma side_bounds : width <= side < 2 * width.
Proof. apply SizeX_bounds, decoded_width_small. Qed.

Lemma src_index_exact Y X :
  0 <= Y < height -> 0 <= X < width ->
  src_index width Y X = Y * width + X /\
  0 <= Y * width + X < Z.of_nat (length (SrcData img)).
Proof.
  intros HY HX. destruct Hd as (Hw & Hh & Hlen & Hraw). unfold int32_max in Hraw.
  assert (Hrow : 0 <= Y * width) by nia.
  assert (Hlt : Y * width + X < width * height) by nia.
  unfold src_index.
  rewrite (to_int32_id (Y * width))
    by (unfold is_int32, int32_min, int32_max; lia).
  rewrite to_int32_id by (unfold is_int32, int32_min, int32_max; lia).
  lia.
Qed.

Lemma dst_index_exact Y X :
  0 <= Y < height -> 0 <= X < width ->
  dst_index side Y X = Y * side + X.
Proof.
  intros HY HX. pose proof side_bounds as HS.
  destruct Hd as (Hw & Hh & Hlen & Hraw). unfold int32_max in Hraw.
  assert (Hrow : 0 <= Y * side) by nia.
  assert (Hlt : Y * side + X < 2 * (width * height)) by nia.
  unfold dst_index.
  rewrite (to_int32_id (Y * side))
    by (unfold is_int32, int32_min, int32_max; lia).
  apply to_int32_id. unfold is_int32, int32_min, int32_max. lia.
Qed.

(** One execution of line 55 inside the buffer. *)
Lemma copy_cell_step Y X G :
  0 <= Y < height -> Y < side -> 0 <= X < width ->
  filled img side Y X G ->
  exists G', copy_cell img side Y X G = Ok G' /\ filled img side Y (X + 1) G'.
Proof.
  intros HY HYS HX [Hnum Hcells].
  pose proof side_bounds as HS.
  destruct (src_index_exact Y X HY HX) as [Hsrc Hsrc_in].
  pose proof (dst_index_exact Y X HY HX) as Hdst.
  set (SX := side) in *.
  assert (Hdst_in : 0 <= Y * SX + X < SX * SX) by nia.
  destruct (lookup_lt_is_Some_2 (SrcData img) (Z.to_nat (Y * width + X)))
    as [v Hv]; [lia|].
  exists (<[Z.to_nat (Y * SX + X) := v]> G). split.
  - unfold copy_cell, ptr_read. rewrite Hsrc, Hdst.
    destruct (Z.ltb_spec (Y * width + X) 0) as [Hneg|_]; [lia|].
    rewrite Hv. cbn. unfold TArray_set, in_range. rewrite Hnum.
    destruct (Z.leb_spec 0 (Y * SX + X)) as [_|Hneg]; [|lia].
    destruct (Z.ltb_spec (Y * SX + X) (SX * SX)) as [_|Hbig]; [|lia].
    reflexivity.
  - split.
    + unfold TArray_Num in *. now rewrite length_insert.
    + intros r c Hr Hc. unfold cell.
      destruct (Z.eq_dec (r * SX + c) (Y * SX + X)) as [Heq|Hne].
      * assert (r = Y /\ c = X) as [-> ->] by (apply (cell_index_inj SX); lia).
        rewrite list_lookup_insert_eq by (unfold TArray_Num in Hnum; lia).
        rewrite Z.eqb_refl.
        destruct (Z.ltb_spec X (X + 1)) as [_|Hbad]; [|lia].
        rewrite orb_true_r. unfold padded_sample.
        destruct (Z.ltb_spec Y height) as [_|Hbad]; [|lia].
        destruct (Z.ltb_spec X width) as [_|Hbad]; [|lia].
        cbn. now rewrite Hv.
      * assert (0 <= r * SX) by nia.
        rewrite list_lookup_insert_ne by lia.
        fold (cell SX G r c). rewrite (Hcells r c Hr Hc). f_equal.
        destruct (Z.eqb_spec r Y) as [->|HrY]; [|reflexivity].
        assert (HcX : c <> X) by (intros ->; apply Hne; reflexivity).
        destruct (Z.ltb_spec c X), (Z.ltb_spec c (X + 1)); try reflexivity; lia.
Qed.

(** One execution of the inner loop, lines 53-56. *)
Lemma copy_row_step Y G :
  0 <= Y < height -> Y < side ->
  filled img side Y 0 G ->
  exists G', copy_row img side Y G = Ok G' /\ filled img side (Y + 1) 0 G'.
Proof.
  intros HY HYS Hfill. pose proof decoded_width_small as Hw.
  destruct (for_loop_inv (filled img side Y) (copy_cell img side Y)
              (Z.to_nat width) 0 G Hfill) as (G' & Hrun & [Hnum Hcells]).
  - intros X H HX Hinv. apply copy_cell_step; try assumption. lia.
  - exists G'. split; [exact Hrun|]. split; [exact Hnum|].
    intros r c Hr Hc. rewrite (Hcells r c Hr Hc). f_equal.
    rewrite Z2Nat.id by lia. rewrite Z.add_0_l.
    unfold padded_sample.
    destruct (Z.ltb_spec r Y), (Z.ltb_spec r (Y + 1)), (Z.eqb_spec r Y),
      (Z.ltb_spec c 0), (Z.ltb_spec c width); cbn;
      try reflexivity; try lia.
    all: now rewrite ?andb_false_r.
Qed.

(** The first [n] rows, as long as they fit the square. *)
Lemma copy_rows_prefix n G :
  0 <= n <= height -> n <= side ->
  filled img side 0 0 G ->
  exists G', for_loop (Z.to_nat n) 0 (copy_row img side) G = Ok G' /\
             filled img side n 0 G'.
Proof.
  intros Hn HnS Hfill.
  destruct (for_loop_inv (fun Y => filled img side Y 0) (copy_row img side)
              (Z.to_nat n) 0 G Hfill) as (G' & Hrun & Hinv).
  - intros Y H HY Hinv. apply copy_row_step; try assumption; lia.
  - exists G'. split; [exact Hrun|].
    now rewrite Z2Nat.id, Z.add_0_l in Hinv by lia.
Qed.

Lemma resize_ok :
  height <= side -> side * side <= int32_max ->
  exists G, resize img = Ok G /\ filled img side height 0 G.
Proof.
  intros Hh Hfit.
  pose proof decoded_width_small as Hw. pose proof side_bounds as HS.
  pose proof decoded_height_pos as Hpos.
  unfold resize. cbv zeta. rewrite alloc_exact by assumption. cbn.
  apply copy_rows_prefix; [lia|assumption|apply filled_zero; lia].
Qed.

(** An image taller than the padded side: the rows that fit are copied,
    the first cell of row [side] is past the end of the buffer. *)
Lemma resize_crash_tall :
  side < height -> side * side <= int32_max ->
  resize img = Crash (RangeCheck (side * side) (side * side)).
Proof.
  intros Hh Hfit.
  pose proof decoded_width_small as Hw. pose proof side_bounds as HS.
  unfold resize. cbv zeta. rewrite alloc_exact by assumption. cbn.
  set (SX := side) in *.
  destruct (copy_rows_prefix SX (Memzero (replicate (Z.to_nat (SX * SX)) 0)))
    as (G' & Hrun & [Hnum _]); [lia|lia|apply filled_zero; lia|].
  fold SX in Hrun, Hnum. unfold copy_rows.
  replace (Z.to_nat height)
    with (Z.to_nat SX + S (Z.to_nat (height - SX - 1)))%nat by lia.
  rewrite for_loop_app, Hrun. cbn [mbind result_bind for_loop].
  rewrite Z.add_0_l, Z2Nat.id by lia.
  assert (Hrow : copy_row img SX SX G' = Crash (RangeCheck (SX * SX) (SX * SX))).
  { unfold copy_row.
    replace (Z.to_nat width) with (S (Z.to_nat (width - 1))) by lia.
    cbn [for_loop].
    assert (HY : 0 <= SX < height) by lia.
    assert (HX : 0 <= 0 < width) by lia.
    destruct (src_index_exact SX 0 HY HX) as [Hsrc Hsrc_in].
    pose proof (dst_index_exact SX 0 HY HX) as Hdst. fold SX in Hdst.
    destruct (lookup_lt_is_Some_2 (SrcData img) (Z.to_nat (SX * width + 0)))
      as [v Hv]; [lia|].
    unfold copy_cell, ptr_read. rewrite Hsrc, Hdst.
    destruct (Z.ltb_spec (SX * width + 0) 0); [lia|].
    rewrite Hv. cbn. unfold TArray_set, in_range. rewrite Hnum, Z.add_0_r.
    rewrite Z.ltb_irrefl, andb_false_r. reflexivity. }
  now rewrite Hrow.
Qed.

(** An image so wide that [SizeX * SizeY] leaves [int32]: the product
    wraps to zero, the buffer is empty and the very first write is
    refused. *)
Lemma resize_crash_wide :
  int32_max < side * side -> resize img = Crash (RangeCheck 0 0).
Proof.
  intros Hbig. pose proof decoded_width_small as Hw.
  assert (Hwrap : to_int32 (side * SizeY width) = 0).
  { unfold SizeY. rewrite SizeX_small in * by assumption.
    rewrite RoundUpToPowerOfTwo_pow in *.
    pose proof (Z.log2_up_nonneg width) as Hk.
    apply pow2_square_wraps.
    destruct (Z.le_gt_cases 16 (Z.log2_up width)) as [|Hlow]; [assumption|].
    exfalso.
    assert (2 ^ Z.log2_up width <= 2 ^ 15) by (apply Z.pow_le_mono_r; lia).
    assert (0 < 2 ^ Z.log2_up width) by (apply Z.pow_pos_nonneg; lia).
    unfold int32_max in Hbig. nia. }
  unfold resize. cbv zeta. rewrite Hwrap. cbn.
  assert (HY : 0 <= 0 < height) by (pose proof decoded_height_pos; lia).
  assert (HX : 0 <= 0 < width) by lia.
  destruct (src_index_exact 0 0 HY HX) as [Hsrc Hsrc_in].
  pose proof (dst_index_exact 0 0 HY HX) as Hdst.
  destruct (lookup_lt_is_Some_2 (SrcData img) (Z.to_nat (0 * width + 0)))
    as [v Hv]; [lia|].
  assert (Hrow : copy_row img side 0 (Memzero (replicate (Z.to_nat 0) 0))
                 = Crash (RangeCheck 0 0)).
  { unfold copy_row.
    replace (Z.to_nat width) with (S (Z.to_nat (width - 1))) by lia.
    cbn [for_loop]. unfold copy_cell, ptr_read. rewrite Hsrc, Hdst.
    destruct (Z.ltb_spec (0 * width + 0) 0); [lia|].
    rewrite Hv. reflexivity. }
  unfold copy_rows.
  replace (Z.to_nat height) with (S (Z.to_nat (height - 1))) by lia.
  cbn [for_loop]. now rewrite Hrow.
Qed.

(** The resize step returns a grid exactly for the images that fit. *)
Lemma resize_Ok_inv G :
  resize img = Ok G ->
  height <= side /\ side * side <= int32_max /\ filled img side height 0 G.
Proof.
  intros Hres.
  destruct (Z.le_gt_cases (side * side) int32_max) as [Hfit|Hbig].
  - destruct (Z.le_gt_cases height side) as [Hh|Htall].
    + destruct (resize_ok Hh Hfit) as (G' & HG' & Hfill).
      rewrite Hres in HG'. injection HG' as <-. auto.
    + rewrite resize_crash_tall in Hres by assumption. discriminate.
  - rewrite resize_crash_wide in Hres by assumption. discriminate.
Qed.

End ResizeStep.

(** ** Identity on square power-of-two grids *)

Lemma filled_square_identity img G :
  decoded img ->
  OriginalSizeY img = OriginalSizeX img ->
  filled img (OriginalSizeX img) (OriginalSizeY img) 0 G ->
  G = SrcData img.
Proof.
  intros Hd Hsq Hfill.
  pose proof Hd as (Hw & Hh & Hlen & Hraw).
  pose proof Hfill as [Hnum _]. unfold TArray_Num in Hnum.
  set (w := OriginalSizeX img) in *.
  apply list_eq. intros i.
  destruct (Nat.lt_ge_cases i (length G)) as [Hin|Hout].
  - assert (Hi : Z.of_nat i = (Z.of_nat i / w) * w + Z.of_nat i mod w)
      by (rewrite Z.mul_comm; apply Z.div_mod; lia).
    assert (Hc : 0 <= Z.of_nat i mod w < w) by (apply Z.mod_pos_bound; lia).
    assert (Hr0 : 0 <= Z.of_nat i / w) by (apply Z.div_pos; lia).
    assert (Hr : 0 <= Z.of_nat i / w < w).
    { split; [assumption|]. apply Z.div_lt_upper_bound; lia. }
    pose proof (filled_done img w G _ _ Hfill Hr Hc) as Hcell.
    unfold cell in Hcell. rewrite <- Hi, Nat2Z.id in Hcell. rewrite Hcell.
    unfold padded_sample. fold w. rewrite Hsq.
    destruct (Z.ltb_spec (Z.of_nat i / w) w); [|lia].
    destruct (Z.ltb_spec (Z.of_nat i mod w) w); [|lia].
    cbn. rewrite <- Hi, Nat2Z.id.
    destruct (lookup_lt_is_Some_2 (SrcData img) i) as [v Hv]; [lia|].
    now rewrite Hv.
  - rewrite (lookup_ge_None_2 G i) by lia.
    now rewrite (lookup_ge_None_2 (SrcData img) i) by lia.
Qed.

(** ** The spec's scenarios, evaluated *)

(** 512 x 512 image, four blocks: no padding, two blocks a side, a
    horizontal scale of 100000 / 512 = 195.3125, 511 component quads. *)
Example scenario_512_four_blocks :
  SizeX 512 = 512 /\ GridSize 4 = 2 /\
  TotalSizeInUnrealUnits 4 = float_of_int32 100000 /\
  HorizontalScaleFactor 512 4 = binary_normalize 24 128 3125 (-4) false /\
  VerticalScaleFactor = float_of_int32 25 /\
  ComponentQuads 512 = 511.
Proof. repeat split; vm_compute; reflexivity. Qed.

(** 300 x 200 image of constant height 1: padded to 512 x 512, the source
    in the top-left corner, zero everywhere else. *)
Example scenario_300_by_200 :
  exists G, resize flat_300_by_200 = Ok G /\
            TArray_Num G = 512 * 512 /\
            forall r c, 0 <= r < 512 -> 0 <= c < 512 ->
                        cell 512 G r c = Some (if (r <? 200) && (c <? 300) then 1 else 0).
Proof.
  assert (Hd : decoded flat_300_by_200).
  { unfold decoded, flat_300_by_200, int32_max.
    cbn [OriginalSizeX OriginalSizeY SrcData]. rewrite length_replicate. lia. }
  assert (HS : SizeX (OriginalSizeX flat_300_by_200) = 512)
    by (vm_compute; reflexivity).
  destruct (resize_ok flat_300_by_200 Hd) as (G & HG & Hfill).
  - rewrite HS. cbn. lia.
  - rewrite HS. unfold int32_max. lia.
  - rewrite HS in Hfill. exists G. split; [exact HG|]. split; [apply Hfill|].
    intros r c Hr Hc. rewrite (filled_done _ _ _ r c Hfill Hr Hc). f_equal.
    unfold padded_sample, flat_300_by_200. cbn [OriginalSizeX OriginalSizeY SrcData].
    destruct (Z.ltb_spec r 200), (Z.ltb_spec c 300); cbn [andb]; try reflexivity.
    now rewrite lookup_replicate_2 by nia.
Qed.

(** * The claims *)

(** C4.  For every positive integer [w], [RoundUpToPowerOfTwo w] (the spec's
    nextPowerOfTwo) is at least [w], is a power of two, and is strictly below
    [2 * w]. *)
Theorem C4_next_power_of_two_tight (w : Z) :
  0 < w ->
  w <= RoundUpToPowerOfTwo w /\
  is_power_of_two (RoundUpToPowerOfTwo w) /\
  RoundUpToPowerOfTwo w < 2 * w.
Proof.
  intros Hw. split; [|split].
  - now apply RoundUpToPowerOfTwo_ge.
  - apply RoundUpToPowerOfTwo_is_pow2.
  - now apply RoundUpToPowerOfTwo_lt_double.
Qed.

Lemma C4_next_power_of_two_tight_witness :
  300 <= RoundUpToPowerOfTwo 300 /\
  is_power_of_two (RoundUpToPowerOfTwo 300) /\
  RoundUpToPowerOfTwo 300 < 2 * 300.
Proof. apply (C4_next_power_of_two_tight 300). lia. Defined.

(** C2.  For every decoded source image the output grid has side
    [RoundUpToPowerOfTwo width] in both dimensions: [SizeX] and [SizeY] are
    that one number, which depends on the width alone, and a grid that the
    resize step returns has that many cells squared, whatever the height. *)
Theorem C2_target_is_square_from_width (img : SourceImage) :
  decoded img ->
  SizeX (OriginalSizeX img) = RoundUpToPowerOfTwo (OriginalSizeX img) /\
  SizeY (OriginalSizeX img) = RoundUpToPowerOfTwo (OriginalSizeX img) /\
  forall G, resize img = Ok G ->
            TArray_Num G = RoundUpToPowerOfTwo (OriginalSizeX img)
                           * RoundUpToPowerOfTwo (OriginalSizeX img).
Proof.
  intros Hd. pose proof (SizeX_small _ (decoded_width_small img Hd)) as HS.
  split; [exact HS|]. split; [exact HS|].
  intros G HG. destruct (resize_Ok_inv img Hd G HG) as (_ & _ & [Hnum _]).
  now rewrite HS in Hnum.
Qed.

Lemma C2_target_is_square_from_width_witness :
  SizeX 3 = RoundUpToPowerOfTwo 3 /\ SizeY 3 = RoundUpToPowerOfTwo 3 /\
  forall G, resize (mkImage 3 2 [1; 2; 3; 4; 5; 6]) = Ok G ->
            TArray_Num G = RoundUpToPowerOfTwo 3 * RoundUpToPowerOfTwo 3.
Proof.
  apply (C2_target_is_square_from_width (mkImage 3 2 [1; 2; 3; 4; 5; 6])).
  unfold decoded, int32_max. cbn. lia.
Defined.

(** C3.  For every decoded grid whose width equals its height and whose side
    is a power of two, the resize step returns the input: the side is
    unchanged and the samples are the source samples. *)
Theorem C3_resize_identity_on_pow2_square (img : SourceImage) :
  decoded img ->
  OriginalSizeY img = OriginalSizeX img ->
  is_power_of_two (OriginalSizeX img) ->
  SizeX (OriginalSizeX img) = OriginalSizeX img /\
  SizeY (OriginalSizeX img) = OriginalSizeY img /\
  resize img = Ok (SrcData img).
Proof.
  intros Hd Hsq (k & Hk & Hpow).
  pose proof (decoded_width_small img Hd) as Hw.
  assert (HS : SizeX (OriginalSizeX img) = OriginalSizeX img).
  { rewrite SizeX_small by assumption. rewrite Hpow.
    now apply RoundUpToPowerOfTwo_fixpoint. }
  split; [exact HS|]. split; [unfold SizeY; congruence|].
  pose proof Hd as (_ & _ & Hlen & Hraw).
  destruct (resize_ok img Hd) as (G & HG & Hfill).
  - rewrite HS. lia.
  - rewrite HS. rewrite Hsq in Hlen. unfold int32_max in *. lia.
  - rewrite HG. f_equal. rewrite HS in Hfill.
    now apply filled_square_identity.
Qed.

Lemma C3_resize_identity_on_pow2_square_witness :
  SizeX 2 = 2 /\ SizeY 2 = 2 /\
  resize (mkImage 2 2 [10; 20; 30; 40]) = Ok [10; 20; 30; 40].
Proof.
  apply (C3_resize_identity_on_pow2_square (mkImage 2 2 [10; 20; 30; 40])).
  - unfold decoded, int32_max. cbn. lia.
  - reflexivity.
  - exists 1. cbn. lia.
Defined.

(** C5.  For every decoded source image, every cell of the grid returned by
    the resize step that lies outside the copied source rectangle (row at or
    beyond the source height, or column at or beyond the source width) holds
    zero; and the grid is returned whenever the image fits the square. *)
Theorem C5_padding_is_zero (img : SourceImage) :
  decoded img ->
  (OriginalSizeY img <= SizeX (OriginalSizeX img) ->
   SizeX (OriginalSizeX img) * SizeY (OriginalSizeX img) <= int32_max ->
   exists G, resize img = Ok G) /\
  forall G r c,
    resize img = Ok G ->
    0 <= r < SizeY (OriginalSizeX img) -> 0 <= c < SizeX (OriginalSizeX img) ->
    OriginalSizeY img <= r \/ OriginalSizeX img <= c ->
    cell (SizeX (OriginalSizeX img)) G r c = Some 0.
Proof.
  intros Hd. split.
  - intros Hh Hfit. destruct (resize_ok img Hd Hh Hfit) as (G & HG & _). eauto.
  - intros G r c HG Hr Hc Hout.
    destruct (resize_Ok_inv img Hd G HG) as (_ & _ & Hfill).
    rewrite (filled_done img _ G r c Hfill Hr Hc). f_equal.
    unfold padded_sample.
    destruct (Z.ltb_spec r (OriginalSizeY img)),
      (Z.ltb_spec c (OriginalSizeX img)); cbn; try reflexivity; lia.
Qed.

Lemma C5_padding_is_zero_witness :
  (exists G, resize (mkImage 3 2 [1; 2; 3; 4; 5; 6]) = Ok G) /\
  cell 4 [1; 2; 3; 0; 4; 5; 6; 0; 0; 0; 0; 0; 0; 0; 0; 0] 1 3 = Some 0.
Proof.
  assert (Hd : decoded (mkImage 3 2 [1; 2; 3; 4; 5; 6]))
    by (unfold decoded, int32_max; cbn; lia).
  destruct (C5_padding_is_zero (mkImage 3 2 [1; 2; 3; 4; 5; 6]) Hd) as [Hex Hpad].
  split.
  - apply Hex; vm_compute; discriminate.
  - apply (Hpad [1; 2; 3; 0; 4; 5; 6; 0; 0; 0; 0; 0; 0; 0; 0; 0] 1 3).
    + reflexivity.
    + vm_compute. split; [discriminate|reflexivity].
    + vm_compute. split; [discriminate|reflexivity].
    + right. cbn. lia.
Defined.

(** C6.  For every [int32] grid size of at least one, the component quads
    are [max 63 (gridSize - 1)], the subsection quads equal the component
    quads and there is one subsection; grid size 1 gives 63 and grid size
    128 gives 127. *)
Theorem C6_terrain_parameters (gridSize : Z) :
  1 <= gridSize <= int32_max ->
  ComponentQuads gridSize = Z.max 63 (gridSize - 1) /\
  SubsectionQuads gridSize = ComponentQuads gridSize /\
  NumSubsections = 1 /\
  ComponentQuads 1 = 63 /\ ComponentQuads 128 = 127.
Proof.
  intros Hg. split; [|repeat split].
  unfold ComponentQuads, FMath_Max.
  rewrite to_int32_id by (unfold is_int32, int32_min, int32_max in *; lia).
  destruct (Z.ltb_spec 63 (gridSize - 1)); lia.
Qed.

Lemma C6_terrain_parameters_witness :
  ComponentQuads 512 = Z.max 63 (512 - 1) /\
  SubsectionQuads 512 = ComponentQuads 512 /\
  NumSubsections = 1 /\
  ComponentQuads 1 = 63 /\ ComponentQuads 128 = 127.
Proof. apply (C6_terrain_parameters 512). unfold int32_max. lia. Defined.

(** C8.  Without a world the function returns at once, in every build: the
    run makes no call at all (no file is read, no image wrapper is created
    or fed, nothing is logged or spawned) and yields no landscape. *)
Theorem C8_null_world_aborts_first
    (WITH_EDITOR : bool) (Eng : Engine) (Path : string) (NumBlocks : Z) :
  GenerateLandscape WITH_EDITOR Eng Path None NumBlocks = ([], HostUnavailable) /\
  computed (GenerateLandscape WITH_EDITOR Eng Path None NumBlocks).2 = None.
Proof. split; reflexivity. Qed.

(** C9.  On any decode failure (file unreadable, bytes not a decodable image
    container, raw 16-bit grayscale extraction failing) the editor-build run
    ends with that one error: exactly one error is logged, no event carries a
    terrain parameter, scale or grid, no call reaches the terrain builder,
    and no landscape results. *)
Theorem C9_decode_failure_is_terminal
    (Eng : Engine) (Path : string) (World : UWorld) (NumBlocks : Z) (err : Outcome) :
  DecodeFailure Eng Path err ->
  exists trace,
    GenerateLandscape true Eng Path (Some World) NumBlocks = (trace, err) /\
    landscape_of err = None /\
    computed err = None /\
    Forall (fun e => is_builder_event e = false /\ carries_terrain e = false) trace /\
    length (filter (fun e => is_error_log e = true) trace) = 1%nat.
Proof.
  intros Hfail. unfold GenerateLandscape, GenerateLandscape_editor.
  destruct Hfail as [Hload|bytes Hload Hvalid|bytes Hload Hvalid Hset
                    |bytes ImageWrapper Hload Hvalid Hset Hraw].
  - rewrite Hload. cbn. eexists. split; [reflexivity|].
    repeat split; repeat constructor.
  - rewrite Hload. step_proc. rewrite Hvalid. cbn. eexists. split; [reflexivity|].
    repeat split; repeat constructor.
  - rewrite Hload. step_proc. rewrite Hvalid. step_proc. rewrite Hset. cbn.
    eexists. split; [reflexivity|].
    repeat split; repeat constructor.
  - rewrite Hload. step_proc. rewrite Hvalid. step_proc. rewrite Hset.
    step_proc. rewrite Hraw. cbn. eexists. split; [reflexivity|].
    repeat split; repeat constructor.
Qed.

Lemma C9_decode_failure_is_terminal_witness :
  exists trace,
    GenerateLandscape true corrupt_engine "corrupt.png" (Some (mkWorld true)) 4
    = (trace, FormatError) /\
    landscape_of FormatError = None /\
    computed FormatError = None /\
    Forall (fun e => is_builder_event e = false /\ carries_terrain e = false) trace /\
    length (filter (fun e => is_error_log e = true) trace) = 1%nat.
Proof.
  apply (C9_decode_failure_is_terminal corrupt_engine "corrupt.png"
           (mkWorld true) 4 FormatError).
  apply (container_undecodable corrupt_engine "corrupt.png" [Byte.x00]);
    reflexivity.
Defined.

(** C10.  The computed values depend on the file bytes and on [NumBlocks]
    only: two editor-build runs in engines that agree on the bytes of the
    file, on the decoder and on the availability of the host (paths, worlds
    and generated GUIDs may differ) compute the same height grid, component
    quads, subsection quads, number of subsections and scales; the vertical
    scale is 25 and the horizontal scale is 50000 times the block grid side
    over the grid size. *)
Theorem C10_computed_values_deterministic
    (Eng1 Eng2 : Engine) (Path1 Path2 : string) (World1 World2 : UWorld)
    (NumBlocks : Z) (bytes : list Byte.byte) :
  LoadFileToArray Eng1 Path1 = Some bytes ->
  LoadFileToArray Eng2 Path2 = Some bytes ->
  CreateImageWrapper_IsValid Eng1 = CreateImageWrapper_IsValid Eng2 ->
  SetCompressed Eng1 bytes = SetCompressed Eng2 bytes ->
  SpawnActor_succeeds World1 = SpawnActor_succeeds World2 ->
  computed (GenerateLandscape true Eng1 Path1 (Some World1) NumBlocks).2 =
  computed (GenerateLandscape true Eng2 Path2 (Some World2) NumBlocks).2 /\
  forall c,
    computed (GenerateLandscape true Eng1 Path1 (Some World1) NumBlocks).2 = Some c ->
    exists ImageWrapper,
      SetCompressed Eng1 bytes = Some ImageWrapper /\
      verticalScale c = float_of_int32 25 /\
      horizontalScale c =
      (let h := fdiv (fmul (float_of_int32 50000) (float_of_int32 (GridSize NumBlocks)))
                     (float_of_int32 (SizeX (GetWidth ImageWrapper))) in (h, h)).
Proof.
  intros Hload1 Hload2 Hvalid Hset Hspawn.
  unfold GenerateLandscape, GenerateLandscape_editor.
  rewrite Hload1, Hload2. step_proc. rewrite Hvalid.
  destruct (CreateImageWrapper_IsValid Eng2); step_proc;
    [|split; [reflexivity|discriminate]].
  rewrite Hset.
  destruct (SetCompressed Eng2 bytes) as [ImageWrapper|]; step_proc;
    [|split; [reflexivity|discriminate]].
  destruct (GetRaw ImageWrapper) as [RawImageData|]; step_proc;
    [|split; [reflexivity|discriminate]].
  destruct (resize _) as [HeightData|f]; step_proc;
    [|split; [reflexivity|discriminate]].
  rewrite Hspawn.
  destruct (SpawnActor_succeeds World2); step_proc;
    [|split; [reflexivity|discriminate]].
  split; [reflexivity|].
  intros c Hc. injection Hc as <-.
  exists ImageWrapper. repeat split.
Qed.

Lemma C10_computed_values_deterministic_witness :
  computed (GenerateLandscape true engine_a "a.png" (Some (mkWorld true)) 4).2 =
  computed (GenerateLandscape true engine_b "b.png" (Some (mkWorld true)) 4).2 /\
  forall c,
    computed (GenerateLandscape true engine_a "a.png" (Some (mkWorld true)) 4).2 = Some c ->
    exists ImageWrapper,
      SetCompressed engine_a [Byte.x89] = Some ImageWrapper /\
      verticalScale c = float_of_int32 25 /\
      horizontalScale c =
      (let h := fdiv (fmul (float_of_int32 50000) (float_of_int32 (GridSize 4)))
                     (float_of_int32 (SizeX (GetWidth ImageWrapper))) in (h, h)).
Proof.
  apply (C10_computed_values_deterministic engine_a engine_b "a.png" "b.png"
           (mkWorld true) (mkWorld true) 4 [Byte.x89]); reflexivity.
Defined.

(** C1.  A decoded image one sample wide and two samples tall: the padded
    side is 1, the buffer holds one sample, and the copy loop's write for
    row 1 has index 1, which the array refuses; the resize step does not
    return a grid and the function stops inside the loop. *)
Theorem C1_tall_image_write_out_of_bounds :
  decoded tall_image /\
  SizeX (OriginalSizeX tall_image) = 1 /\
  dst_index (SizeX (OriginalSizeX tall_image)) 1 0 = 1 /\
  resize tall_image = Crash (RangeCheck 1 1) /\
  (GenerateLandscape true tall_engine "tall.png" (Some (mkWorld true)) 4).2
  = Faulted (RangeCheck 1 1).
Proof.
  split; [unfold decoded, int32_max; cbn; lia|].
  repeat split; vm_compute; reflexivity.
Qed.

(** * Further properties of the code *)

(** ** The resize step: when it returns, and what it keeps *)

Lemma side_is_pow2 w : 0 < w < 2 ^ 30 -> is_power_of_two (SizeX w).
Proof.
  intros Hw. rewrite SizeX_small by assumption. apply RoundUpToPowerOfTwo_is_pow2.
Qed.

Lemma pow2_square_fits S :
  is_power_of_two S -> (S * S <= int32_max <-> S <= 32768).
Proof.
  intros (k & Hk & ->). unfold int32_max. split.
  - intros Hsq. destruct (Z.le_gt_cases k 15) as [Hle|Hgt].
    + change 32768 with (2 ^ 15). apply Z.pow_le_mono_r; lia.
    + exfalso. assert (2 ^ 16 <= 2 ^ k) by (apply Z.pow_le_mono_r; lia).
      change (2 ^ 16) with 65536 in *. nia.
  - intros Hle. assert (0 < 2 ^ k) by (apply Z.pow_pos_nonneg; lia). nia.
Qed.

(** X1.  For a decoded image the resize step returns a grid exactly when the
    image is no taller than the padded side and the padded side is at most
    32768.  Otherwise it stops on the range check of the destination array,
    with the index one past the last cell; it never reads outside the source
    buffer and never asks for a negative count. *)
Theorem resize_returns_iff_fits (img : SourceImage) :
  decoded img ->
  ((exists G, resize img = Ok G) <->
   OriginalSizeY img <= SizeX (OriginalSizeX img) /\
   SizeX (OriginalSizeX img) <= 32768) /\
  (forall f, resize img = Crash f ->
             exists n, f = RangeCheck n n /\
                       (n = 0 \/ n = SizeX (OriginalSizeX img) * SizeY (OriginalSizeX img))).
Proof.
  intros Hd.
  pose proof (pow2_square_fits _ (side_is_pow2 _ (decoded_width_small img Hd))) as Hfits.
  split; [split|].
  - intros [G HG]. destruct (resize_Ok_inv img Hd G HG) as (Hh & Hsq & _).
    split; [assumption|now apply Hfits].
  - intros [Hh Hside]. apply Hfits in Hside.
    destruct (resize_ok img Hd Hh Hside) as (G & HG & _). eauto.
  - intros f Hf.
    destruct (Z.le_gt_cases (SizeX (OriginalSizeX img) * SizeX (OriginalSizeX img))
                int32_max) as [Hsq|Hbig].
    + destruct (Z.le_gt_cases (OriginalSizeY img) (SizeX (OriginalSizeX img)))
        as [Hh|Htall].
      * destruct (resize_ok img Hd Hh Hsq) as (G & HG & _). congruence.
      * rewrite resize_crash_tall in Hf by assumption. injection Hf as <-.
        eexists. split; [reflexivity|]. right. reflexivity.
    + rewrite resize_crash_wide in Hf by assumption. injection Hf as <-.
      exists 0. auto.
Qed.

Lemma resize_returns_iff_fits_witness :
  ((exists G, resize tall_image = Ok G) <->
   OriginalSizeY tall_image <= SizeX (OriginalSizeX tall_image) /\
   SizeX (OriginalSizeX tall_image) <= 32768) /\
  (forall f, resize tall_image = Crash f ->
             exists n, f = RangeCheck n n /\
                       (n = 0 \/ n = SizeX (OriginalSizeX tall_image)
                                     * SizeY (OriginalSizeX tall_image))).
Proof.
  apply (resize_returns_iff_fits tall_image).
  unfold decoded, int32_max. cbn. lia.
Defined.

(** X2.  Every sample of a decoded source image is found in the returned
    grid at its own row and column: row [r], column [c] of the grid equals
    sample [r * width + c] of the source. *)
Theorem resize_keeps_source_rectangle (img : SourceImage) (G : list Z) (r c : Z) :
  decoded img -> resize img = Ok G ->
  0 <= r < OriginalSizeY img -> 0 <= c < OriginalSizeX img ->
  exists v, SrcData img !! Z.to_nat (r * OriginalSizeX img + c) = Some v /\
            cell (SizeX (OriginalSizeX img)) G r c = Some v.
Proof.
  intros Hd HG Hr Hc.
  destruct (resize_Ok_inv img Hd G HG) as (Hh & _ & Hfill).
  pose proof (side_bounds img Hd) as HS.
  destruct (src_index_exact img Hd r c Hr Hc) as [_ Hin].
  destruct (lookup_lt_is_Some_2 (SrcData img) (Z.to_nat (r * OriginalSizeX img + c)))
    as [v Hv]; [lia|].
  exists v. split; [exact Hv|].
  rewrite (filled_done img _ G r c Hfill) by lia.
  unfold padded_sample.
  destruct (Z.ltb_spec r (OriginalSizeY img)); [|lia].
  destruct (Z.ltb_spec c (OriginalSizeX img)); [|lia].
  cbn. now rewrite Hv.
Qed.

Lemma resize_keeps_source_rectangle_witness :
  exists v, [1; 2; 3; 4; 5; 6] !! Z.to_nat (1 * 3 + 2) = Some v /\
            cell (SizeX 3) [1; 2; 3; 0; 4; 5; 6; 0; 0; 0; 0; 0; 0; 0; 0; 0] 1 2 = Some v.
Proof.
  apply (resize_keeps_source_rectangle (mkImage 3 2 [1; 2; 3; 4; 5; 6])
           [1; 2; 3; 0; 4; 5; 6; 0; 0; 0; 0; 0; 0; 0; 0; 0] 1 2).
  - unfold decoded, int32_max. cbn. lia.
  - reflexivity.
  - cbn. lia.
  - cbn. lia.
Defined.

Lemma resize_square_is_identity img :
  decoded img ->
  OriginalSizeY img = OriginalSizeX img ->
  SizeX (OriginalSizeX img) = OriginalSizeX img ->
  resize img = Ok (SrcData img).
Proof.
  intros Hd Hsq HS. pose proof Hd as (_ & _ & Hlen & Hraw).
  destruct (resize_ok img Hd) as (G & HG & Hfill).
  - rewrite HS. lia.
  - rewrite HS. rewrite Hsq in Hlen. unfold int32_max in *. lia.
  - rewrite HG. f_equal. rewrite HS in Hfill.
    now apply filled_square_identity.
Qed.

(** X3.  Resizing is idempotent: a grid returned for a decoded image, read
    back as a square image of the padded side, is returned unchanged, as
    long as its raw bytes still fit an [int32] count. *)
Theorem resize_idempotent (img : SourceImage) (G : list Z) :
  decoded img -> resize img = Ok G ->
  2 * (SizeX (OriginalSizeX img) * SizeY (OriginalSizeX img)) <= int32_max ->
  resize (mkImage (SizeX (OriginalSizeX img)) (SizeY (OriginalSizeX img)) G) = Ok G.
Proof.
  intros Hd HG Hraw.
  destruct (resize_Ok_inv img Hd G HG) as (_ & _ & [Hnum _]).
  pose proof (decoded_width_small img Hd) as Hw.
  pose proof (side_bounds img Hd) as HS.
  destruct (side_is_pow2 _ Hw) as (k & Hk & Hpow).
  unfold SizeY in *. unfold TArray_Num in Hnum.
  set (S := SizeX (OriginalSizeX img)) in *.
  assert (Hd' : decoded (mkImage S S G)).
  { unfold decoded. cbn [OriginalSizeX OriginalSizeY SrcData]. lia. }
  apply (resize_square_is_identity (mkImage S S G) Hd'); [reflexivity|].
  cbn [OriginalSizeX].
  rewrite SizeX_small by (unfold int32_max in *; nia).
  rewrite Hpow. now apply RoundUpToPowerOfTwo_fixpoint.
Qed.

Lemma resize_idempotent_witness :
  resize (mkImage (SizeX 3) (SizeY 3)
                  [1; 2; 3; 0; 4; 5; 6; 0; 0; 0; 0; 0; 0; 0; 0; 0])
  = Ok [1; 2; 3; 0; 4; 5; 6; 0; 0; 0; 0; 0; 0; 0; 0; 0].
Proof.
  apply (resize_idempotent (mkImage 3 2 [1; 2; 3; 4; 5; 6])).
  - unfold decoded, int32_max. cbn. lia.
  - reflexivity.
  - vm_compute. discriminate.
Defined.

(** ** Component size *)

(** X4.  For every decoded image the component size is a power of two minus
    one, as the landscape requires, and at least 63; it is the padded side
    minus one once the side reaches 64, and stays 63 for smaller sides,
    where it exceeds the extent of the grid. *)
Theorem component_quads_pow2_minus_one (img : SourceImage) :
  decoded img ->
  is_power_of_two (ComponentQuads (SizeX (OriginalSizeX img)) + 1) /\
  63 <= ComponentQuads (SizeX (OriginalSizeX img)) /\
  (64 <= SizeX (OriginalSizeX img) ->
   ComponentQuads (SizeX (OriginalSizeX img)) = SizeX (OriginalSizeX img) - 1) /\
  (SizeX (OriginalSizeX img) < 64 ->
   ComponentQuads (SizeX (OriginalSizeX img)) = 63 /\
   SizeX (OriginalSizeX img) - 1 < ComponentQuads (SizeX (OriginalSizeX img))).
Proof.
  intros Hd. pose proof (decoded_width_small img Hd) as Hw.
  pose proof (side_bounds img Hd) as HS.
  pose proof (side_is_pow2 _ Hw) as Hpow.
  set (S := SizeX (OriginalSizeX img)) in *.
  assert (HCQ : ComponentQuads S = Z.max 63 (S - 1)).
  { unfold ComponentQuads, FMath_Max.
    rewrite to_int32_id by (unfold is_int32, int32_min, int32_max; lia).
    destruct (Z.ltb_spec 63 (S - 1)); lia. }
  rewrite HCQ. split; [|lia].
  destruct (Z.le_gt_cases 64 S).
  - rewrite Z.max_r by lia. now replace (S - 1 + 1) with S by lia.
  - rewrite Z.max_l by lia. exists 6. split; [lia|reflexivity].
Qed.

Lemma component_quads_pow2_minus_one_witness :
  is_power_of_two (ComponentQuads (SizeX 300) + 1) /\
  63 <= ComponentQuads (SizeX 300) /\
  (64 <= SizeX 300 -> ComponentQuads (SizeX 300) = SizeX 300 - 1) /\
  (SizeX 300 < 64 ->
   ComponentQuads (SizeX 300) = 63 /\ SizeX 300 - 1 < ComponentQuads (SizeX 300)).
Proof.
  apply (component_quads_pow2_minus_one flat_300_by_200).
  unfold decoded, flat_300_by_200, int32_max.
  cbn [OriginalSizeX OriginalSizeY SrcData]. rewrite length_replicate. lia.
Defined.

(** ** The calls the function makes *)

(** X5.  A call of the terrain builder (spawn, configuration, scale, import,
    landscape info) happens only in an editor build, with a world, and after
    the file was loaded, the wrapper was valid, the container decoded, the
    raw data extracted and the copy loop completed. *)
Theorem builder_called_only_after_decode
    (WITH_EDITOR : bool) (Eng : Engine) (Path : string) (World : option UWorld)
    (NumBlocks : Z) (e : Event) :
  In e (GenerateLandscape WITH_EDITOR Eng Path World NumBlocks).1 ->
  is_builder_event e = true ->
  WITH_EDITOR = true /\
  exists W bytes ImageWrapper RawImageData HeightData,
    World = Some W /\
    LoadFileToArray Eng Path = Some bytes /\
    CreateImageWrapper_IsValid Eng = true /\
    SetCompressed Eng bytes = Some ImageWrapper /\
    GetRaw ImageWrapper = Some RawImageData /\
    resize (mkImage (GetWidth ImageWrapper) (GetHeight ImageWrapper) RawImageData)
    = Ok HeightData.
Proof.
  destruct World as [W|]; [|intros []].
  destruct WITH_EDITOR.
  - split_run Eng Path W; intros Hin Hb.
    1,2: split; [reflexivity|];
         exists W, bytes, ImageWrapper, RawImageData, HeightData;
         repeat split; assumption.
    all: exfalso; in_trace Hin; subst e; discriminate.
  - cbn. intros [<-|[]] Hb. discriminate.
Qed.

Lemma builder_called_only_after_decode_witness :
  true = true /\
  exists W bytes ImageWrapper RawImageData HeightData,
    Some (mkWorld true) = Some W /\
    LoadFileToArray engine_a "a.png" = Some bytes /\
    CreateImageWrapper_IsValid engine_a = true /\
    SetCompressed engine_a bytes = Some ImageWrapper /\
    GetRaw ImageWrapper = Some RawImageData /\
    resize (mkImage (GetWidth ImageWrapper) (GetHeight ImageWrapper) RawImageData)
    = Ok HeightData.
Proof.
  apply (builder_called_only_after_decode true engine_a "a.png"
           (Some (mkWorld true)) 4 EvSpawnActor).
  - vm_compute. tauto.
  - reflexivity.
Defined.

(** X6.  The decoder is driven in order and never past a failure: the file
    is read only in an editor build with a world and only at the given path;
    [SetCompressed] is fed exactly the bytes that were loaded and only when
    the wrapper is valid; [GetRaw] is reached only after [SetCompressed]
    succeeded. *)
Theorem decoder_calls_are_gated
    (WITH_EDITOR : bool) (Eng : Engine) (Path : string) (World : option UWorld)
    (NumBlocks : Z) :
  let trace := (GenerateLandscape WITH_EDITOR Eng Path World NumBlocks).1 in
  (forall p, In (EvLoadFileToArray p) trace ->
             p = Path /\ WITH_EDITOR = true /\ World <> None) /\
  (forall b, In (EvSetCompressed b) trace ->
             LoadFileToArray Eng Path = Some b /\
             CreateImageWrapper_IsValid Eng = true) /\
  (In EvGetRaw trace ->
   exists b ImageWrapper,
     LoadFileToArray Eng Path = Some b /\
     SetCompressed Eng b = Some ImageWrapper).
Proof.
  destruct World as [W|]; [|cbn; tauto].
  destruct WITH_EDITOR.
  - split_run Eng Path W; cbv zeta; (split; [|split]).
    all: try (intros p Hin; in_trace Hin; try discriminate;
              injection Hin as <-; repeat split; congruence).
    all: try (intros b Hin; in_trace Hin; try discriminate;
              injection Hin as <-; split; congruence).
    all: try (intros Hin; in_trace Hin; try discriminate; eauto).
  - cbn. split; [|split].
    + intros p [Hin|[]]. discriminate.
    + intros b [Hin|[]]. discriminate.
    + intros [Hin|[]]. discriminate.
Qed.

(** X7.  An error is logged exactly once when decoding fails and never
    otherwise: a missing world, a non-editor build, a copy stopped by the
    range check and a failed spawn all end the call without an error line,
    and so does success. *)
Theorem error_logged_iff_decode_failure
    (WITH_EDITOR : bool) (Eng : Engine) (Path : string) (World : option UWorld)
    (NumBlocks : Z) :
  length (filter (fun e => is_error_log e = true)
                 (GenerateLandscape WITH_EDITOR Eng Path World NumBlocks).1) =
  match (GenerateLandscape WITH_EDITOR Eng Path World NumBlocks).2 with
  | FileReadError | FormatError | PixelFormatError => 1%nat
  | _ => 0%nat
  end.
Proof.
  destruct World as [W|]; [|reflexivity].
  destruct WITH_EDITOR; [|reflexivity].
  split_run Eng Path W; reflexivity.
Qed.

(** X8.  On an editor build with a world, a readable file, a valid wrapper
    and a decoded image that fits the padded square, the call succeeds: the
    builder is driven once and in order (spawn, configure, scale, import,
    landscape info), the import covers the square [0, SizeX - 1] in both
    directions under a fresh GUID, and the height data stored under the
    default GUID is the padded grid, one sample for every vertex of that
    square. *)
Theorem successful_run_imports_padded_grid
    (Eng : Engine) (Path : string) (World : UWorld) (NumBlocks : Z)
    (bytes : list Byte.byte) (ImageWrapper : IImageWrapper) (RawImageData : list Z) :
  LoadFileToArray Eng Path = Some bytes ->
  CreateImageWrapper_IsValid Eng = true ->
  SetCompressed Eng bytes = Some ImageWrapper ->
  GetRaw ImageWrapper = Some RawImageData ->
  decoded (mkImage (GetWidth ImageWrapper) (GetHeight ImageWrapper) RawImageData) ->
  GetHeight ImageWrapper <= SizeX (GetWidth ImageWrapper) ->
  SizeX (GetWidth ImageWrapper) <= 32768 ->
  SpawnActor_succeeds World = true ->
  exists trace L G,
    GenerateLandscape true Eng Path (Some World) NumBlocks = (trace, Created L) /\
    resize (mkImage (GetWidth ImageWrapper) (GetHeight ImageWrapper) RawImageData) = Ok G /\
    InHeightDataPerLayers (Imported L) !! FGuid_default = Some G /\
    InMaterialLayerDataPerLayers (Imported L) !! FGuid_default = Some [] /\
    InGuid (Imported L) = NewGuid Eng /\
    InMinX (Imported L) = 0 /\ InMinY (Imported L) = 0 /\
    InMaxX (Imported L) = SizeX (GetWidth ImageWrapper) - 1 /\
    InMaxY (Imported L) = SizeX (GetWidth ImageWrapper) - 1 /\
    TArray_Num G = (InMaxX (Imported L) - InMinX (Imported L) + 1)
                   * (InMaxY (Imported L) - InMinY (Imported L) + 1) /\
    InSubsectionSizeQuads (Imported L) = SubsectionSizeQuads L /\
    InNumSubsections (Imported L) = LandscapeNumSubsections L /\
    filter (fun e => is_builder_event e = true) trace =
    [EvSpawnActor;
     EvConfigure (ComponentSizeQuads L) (SubsectionSizeQuads L) (LandscapeNumSubsections L);
     EvSetActorScale3D (ActorScale3D L);
     EvImport (Imported L);
     EvCreateLandscapeInfo].
Proof.
  intros Hload Hvalid Hset Hraw Hd Hh Hside Hspawn.
  set (img := mkImage (GetWidth ImageWrapper) (GetHeight ImageWrapper) RawImageData) in *.
  pose proof (decoded_width_small img Hd) as Hw.
  pose proof (side_bounds img Hd) as HS.
  apply (pow2_square_fits _ (side_is_pow2 _ Hw)) in Hside.
  destruct (resize_ok img Hd Hh Hside) as (G & HG & [Hnum _]).
  cbn [OriginalSizeX img] in *.
  assert (Hmax : to_int32 (SizeX (GetWidth ImageWrapper) - 1)
                 = SizeX (GetWidth ImageWrapper) - 1)
    by (apply to_int32_id; unfold is_int32, int32_min, int32_max in *; nia).
  unfold GenerateLandscape, GenerateLandscape_editor.
  rewrite Hload. step_proc. rewrite Hvalid. step_proc. rewrite Hset. step_proc.
  rewrite Hraw. step_proc. fold img. rewrite HG. step_proc.
  rewrite Hspawn. cbn [negb]. step_proc.
  eexists _, _, G. split; [reflexivity|]. split; [reflexivity|].
  cbn [Imported InHeightDataPerLayers InMaterialLayerDataPerLayers InGuid InMinX InMinY
       InMaxX InMaxY InSubsectionSizeQuads InNumSubsections SubsectionSizeQuads
       LandscapeNumSubsections ComponentSizeQuads ActorScale3D].
  unfold SizeY. rewrite Hmax, !lookup_insert_eq.
  repeat split; try reflexivity. rewrite Hnum. lia.
Qed.

Lemma successful_run_imports_padded_grid_witness :
  exists trace L G,
    GenerateLandscape true engine_a "a.png" (Some (mkWorld true)) 4 = (trace, Created L) /\
    resize (mkImage (GetWidth two_by_two) (GetHeight two_by_two) [10; 20; 30; 40]) = Ok G /\
    InHeightDataPerLayers (Imported L) !! FGuid_default = Some G /\
    InMaterialLayerDataPerLayers (Imported L) !! FGuid_default = Some [] /\
    InGuid (Imported L) = NewGuid engine_a /\
    InMinX (Imported L) = 0 /\ InMinY (Imported L) = 0 /\
    InMaxX (Imported L) = SizeX (GetWidth two_by_two) - 1 /\
    InMaxY (Imported L) = SizeX (GetWidth two_by_two) - 1 /\
    TArray_Num G = (InMaxX (Imported L) - InMinX (Imported L) + 1)
                   * (InMaxY (Imported L) - InMinY (Imported L) + 1) /\
    InSubsectionSizeQuads (Imported L) = SubsectionSizeQuads L /\
    InNumSubsections (Imported L) = LandscapeNumSubsections L /\
    filter (fun e => is_builder_event e = true) trace =
    [EvSpawnActor;
     EvConfigure (ComponentSizeQuads L) (SubsectionSizeQuads L) (LandscapeNumSubsections L);
     EvSetActorScale3D (ActorScale3D L);
     EvImport (Imported L);
     EvCreateLandscapeInfo].
Proof.
  apply (successful_run_imports_padded_grid engine_a "a.png" (mkWorld true) 4
           [Byte.x89] two_by_two [10; 20; 30; 40]); try reflexivity.
  - unfold decoded, int32_max. cbn. lia.
  - vm_compute. discriminate.
Defined.

(** ** The scale computation in binary32 *)

Lemma all_from_spec n P :
  forall i, all_from n i P = true ->
            forall k, i <= k < i + Z.of_nat n -> P k = true.
Proof.
  induction n as [|n IH]; intros i Hall k Hk; [lia|].
  cbn [all_from] in Hall. apply andb_true_iff in Hall as [Hi Hrest].
  destruct (Z.eq_dec k i) as [->|Hne]; [assumption|].
  apply (IH (i + 1) Hrest). lia.
Qed.

Lemma Z_div_eucl_eq a b : Z.div_eucl a b = (a / b, a mod b).
Proof. unfold Z.div, Z.modulo. now destruct (Z.div_eucl a b). Qed.

Lemma mul_pow23 m :
  (8388608 * m = m~0~0~0~0~0~0~0~0~0~0~0~0~0~0~0~0~0~0~0~0~0~0~0)%positive.
Proof. reflexivity. Qed.

(** Rounding a 25-bit mantissa whose last bit is zero drops that bit. *)
Lemma round_shift1 s m e :
  digits2_pos m = 24%positive -> -149 <= e + 1 <= 104 ->
  binary_round_aux 24 128 s (Zpos m~0) e loc_Exact = S754_finite s m (e + 1).
Proof.
  intros Hd He. unfold binary_round_aux, shr_fexp.
  cbn [Zdigits2 shr_record_of_loc digits2_pos].
  rewrite Hd. unfold fexp, emin.
  replace (Z.max (Z.pos (Pos.succ 24) + e - 24) (3 - 128 - 24) - e) with 1 by lia.
  cbn [shr SpecFloat.iter_pos shr_1 orb shr_m loc_of_shr_record round_nearest_even Zdigits2
       shr_record_of_loc].
  rewrite Hd.
  replace (Z.max (24 + (e + 1) - 24) (3 - 128 - 24) - (e + 1)) with 0 by lia.
  cbn [shr shr_m].
  destruct (Z.leb_spec (e + 1) (128 - 24)); [reflexivity|lia].
Qed.

(** Rounding a 47-bit mantissa whose last 23 bits are zero drops them. *)
Lemma round_shift23 s m e :
  digits2_pos m = 24%positive -> -149 <= e + 23 <= 104 ->
  binary_round_aux 24 128 s (Zpos (8388608 * m)) e loc_Exact = S754_finite s m (e + 23).
Proof.
  intros Hd He. unfold binary_round_aux, shr_fexp.
  rewrite mul_pow23. cbn [Zdigits2 shr_record_of_loc digits2_pos].
  rewrite Hd. unfold fexp, emin.
  match goal with
  | |- context [Z.max ?a ?b - e] => replace (Z.max a b - e) with 23 by (cbn; lia)
  end.
  cbn [shr SpecFloat.iter_pos shr_1 orb shr_m loc_of_shr_record round_nearest_even Zdigits2
       shr_record_of_loc].
  rewrite Hd.
  replace (Z.max (24 + (e + 23) - 24) (3 - 128 - 24) - (e + 23)) with 0 by lia.
  cbn [shr shr_m].
  destruct (Z.leb_spec (e + 23) (128 - 24)); [reflexivity|lia].
Qed.

Lemma fmul_pow2 s m e k :
  digits2_pos m = 24%positive -> -149 <= e + k <= 104 ->
  fmul (S754_finite s m e) (pow2_float k) = S754_finite s m (e + k).
Proof.
  intros Hd He. unfold fmul, pow2_float, SFmul.
  rewrite Pos.mul_comm, xorb_false_r.
  rewrite round_shift23 by (assumption || lia). f_equal. lia.
Qed.

Lemma fdiv_pow2 s m e k :
  digits2_pos m = 24%positive -> -148 <= e - k <= 104 ->
  fdiv (S754_finite s m e) (pow2_float k) = S754_finite s m (e - k).
Proof.
  intros Hd He. unfold fdiv, pow2_float, SFdiv, SFdiv_core_binary.
  change (Zdigits2 (Z.pos 8388608)) with 24.
  cbn [Zdigits2]. rewrite Hd. unfold fexp, emin.
  replace (Z.min (Z.max (24 + e - (24 + (k - 23)) - 24) (3 - 128 - 24)) (e - (k - 23)))
    with (e - k - 1) by lia.
  replace (e - (k - 23) - (e - k - 1)) with 24 by lia.
  rewrite Z_div_eucl_eq.
  rewrite Z.shiftl_mul_pow2 by lia.
  replace (Z.pos m * 2 ^ 24) with (Z.pos m~0 * 8388608)
    by (change (2 ^ 24) with 16777216; lia).
  rewrite Z.div_mul by lia. rewrite Z.mod_mul by lia.
  cbn [new_location Z.even new_location_even Z.eqb xorb].
  rewrite xorb_false_r.
  rewrite round_shift1 by (assumption || lia). f_equal. lia.
Qed.

(** Dividing a normal number by a power of two and multiplying back is
    exact. *)
Lemma div_then_mul_pow2 s m e k :
  digits2_pos m = 24%positive -> -148 <= e - k -> e <= 104 -> 0 <= k ->
  fmul (fdiv (S754_finite s m e) (pow2_float k)) (pow2_float k) = S754_finite s m e.
Proof.
  intros. rewrite fdiv_pow2, fmul_pow2 by (assumption || lia). f_equal. lia.
Qed.

Lemma float_of_pow2 k : 0 <= k <= 30 -> float_of_int32 (2 ^ k) = pow2_float k.
Proof.
  intros Hk. rewrite <- (Z2Nat.id k) by lia.
  assert (Hn : (Z.to_nat k <= 30)%nat) by lia.
  generalize dependent (Z.to_nat k). intros n Hn.
  do 31 (destruct n as [|n]; [vm_compute; reflexivity|]). lia.
Qed.

Lemma total_size_is_normal G :
  1 <= G <= 46341 -> is_normal (fmul BlockSizeInUnrealUnits (float_of_int32 G)) = true.
Proof.
  intros HG.
  assert (Hall : all_from (Z.to_nat 46341) 1
                   (fun G => is_normal (fmul BlockSizeInUnrealUnits (float_of_int32 G)))
                 = true) by (vm_compute; reflexivity).
  apply (all_from_spec _ _ 1 Hall). lia.
Qed.

(** X9.  For every perfect square [k * k] that fits [int32] (k up to 46340)
    the block grid side computed from it is exactly [k]: conversion to
    single precision, square root and rounding lose nothing. *)
Theorem GridSize_of_perfect_square (k : Z) :
  0 <= k <= 46340 -> GridSize (k * k) = k.
Proof.
  intros Hk.
  assert (Hall : all_from (Z.to_nat 46341) 0 (fun k => GridSize (k * k) =? k) = true)
    by (vm_compute; reflexivity).
  apply Z.eqb_eq. apply (all_from_spec _ _ 0 Hall). lia.
Qed.

Lemma GridSize_of_perfect_square_witness : GridSize (3 * 3) = 3.
Proof. apply (GridSize_of_perfect_square 3). lia. Defined.

(** X10.  For every decoded image and every block count whose grid side is
    between 0 and 46341, the horizontal scale times the padded side gives
    back the total world size with no rounding error in single precision:
    the padded side is a power of two, so the division of line 76 is
    exact. *)
Theorem horizontal_scale_times_side_is_total_size (img : SourceImage) (NumBlocks : Z) :
  decoded img ->
  0 <= GridSize NumBlocks <= 46341 ->
  fmul (HorizontalScaleFactor (SizeX (OriginalSizeX img)) NumBlocks)
       (float_of_int32 (SizeX (OriginalSizeX img)))
  = TotalSizeInUnrealUnits NumBlocks.
Proof.
  intros Hd HG. pose proof (decoded_width_small img Hd) as Hw.
  assert (Hside : float_of_int32 (SizeX (OriginalSizeX img))
                  = pow2_float (Z.log2_up (OriginalSizeX img))).
  { rewrite SizeX_small, RoundUpToPowerOfTwo_pow by assumption.
    apply float_of_pow2. split; [apply Z.log2_up_nonneg|].
    destruct (Z.eq_dec (OriginalSizeX img) 1) as [->|Hne]; [cbn; lia|].
    apply Z.log2_up_le_pow2; lia. }
  unfold HorizontalScaleFactor. rewrite Hside.
  unfold TotalSizeInUnrealUnits.
  destruct (Z.eq_dec (GridSize NumBlocks) 0) as [->|Hpos]; [reflexivity|].
  pose proof (total_size_is_normal (GridSize NumBlocks)) as Hnorm.
  destruct (fmul BlockSizeInUnrealUnits (float_of_int32 (GridSize NumBlocks)))
    as [| | |s m e]; try (discriminate Hnorm; lia).
  cbn [is_normal] in Hnorm. specialize (Hnorm ltac:(lia)).
  apply andb_true_iff in Hnorm as [Hnorm He2].
  apply andb_true_iff in Hnorm as [Hm He1].
  apply Pos.eqb_eq in Hm. apply Z.leb_le in He1, He2.
  pose proof (Z.log2_up_nonneg (OriginalSizeX img)).
  assert (Z.log2_up (OriginalSizeX img) <= 30).
  { destruct (Z.eq_dec (OriginalSizeX img) 1) as [->|Hne]; [cbn; lia|].
    apply Z.log2_up_le_pow2; lia. }
  apply div_then_mul_pow2; (assumption || lia).
Qed.

Lemma horizontal_scale_times_side_is_total_size_witness :
  fmul (HorizontalScaleFactor (SizeX 300) 4) (float_of_int32 (SizeX 300))
  = TotalSizeInUnrealUnits 4.
Proof.
  apply (horizontal_scale_times_side_is_total_size flat_300_by_200 4).
  - unfold decoded, flat_300_by_200, int32_max.
    cbn [OriginalSizeX OriginalSizeY SrcData]. rewrite length_replicate. lia.
  - vm_compute. split; discriminate.
Defined.

(** ** Rounding to binary32: the result is a normal number *)

















(** The block grid side is the nearest integer to the root as single
    precision holds it.  The root of 8412900 is 2900.49997..., which binary32
    cannot tell from 2900.5, and the half goes up. *)
Example GridSize_rounds_the_binary32_root : GridSize (2900 * 2900 + 2900) = 2901.
Proof. vm_compute. reflexivity. Qed.


